(** * A shallow embedding of the flitz HTTP router (src/src/server.ts)

    The development follows the first (current) [createServer] of
    [src/src/server.ts]: the request listener [flitz], [mergeHandler],
    [compileAllWithMiddlewares], [withMethod], [use] and the cached static
    file handler.

    Asynchronous code is modelled by the observable trace it produces for one
    request: which middlewares, handlers, not-found and error handlers are
    invoked, in invocation order.  Every middleware and handler of the source
    is an [async] function ([Promise<any>] in its type), so its failures are
    promise rejections, caught by the [.catch(handleError)] of [mergeHandler]
    or by the [try]/[catch] of the listener. *)

From stdpp Require Import base list gmap strings.

Set Warnings "-register-all".

Module Flitz.

(** ** Runtime values of one request *)

(** Error values ([any] in the source) are represented by strings. *)
Definition js_error := string.

(** The settled state of a promise returned by an [async] function. *)
Inductive outcome :=
| Resolved
| Rejected (e : js_error).

(** [IncomingMessage]: the parts of a request the router reads. [url] is
    Node's [req.url]: the request target, path plus query string. *)
Record IncomingMessage := {
  method : string;
  url : string;
  headers : list (string * string)
}.

(** Observable events of handling one request. *)
Inductive event :=
| EMiddleware (name : nat)             (* a middleware is invoked *)
| EHandler (name : nat)                (* a terminal request handler is invoked *)
| ENotFound (name : nat)               (* the not-found handler is invoked *)
| EErrorHandler (name : nat) (e : js_error). (* the error handler is invoked with [e] *)

(** A middleware: its identity, how many times its body calls [next()], and
    how its promise settles afterwards. *)
Record Middleware := {
  mw_name : nat;
  mw_nexts : nat;
  mw_result : outcome
}.

(** A [RequestHandler]: a user handler, or the closure built by
    [mergeHandler(handler, middlewares, getErrorHandler)]. *)
Inductive RequestHandler :=
| HUser (name : nat) (result : outcome)
| HMerged (handler : RequestHandler) (middlewares : list Middleware).

(** [.catch(handleError)]: a rejection invokes the current error handler. *)
Definition handleError (eh : nat) (o : outcome) : list event :=
  match o with
  | Resolved => []
  | Rejected e => [EErrorHandler eh e]
  end.

(** The [next] closure of [mergeHandler]:
<<
    const next = () => {
      const mw = middlewares[++i];
      if (mw) { mw(req, res, next).catch(handleError); }
      else    { handler(req, res).catch(handleError); }
    };
>>
    [i] is the shared counter, here the index [++i] reads (the number of
    [next()] calls made so far).  [inner] is what one invocation of
    [handler] produces.  The result is the trace and the counter after the
    call.  [fuel] bounds the nesting depth; [length middlewares + 1]
    suffices since each nested call reads a larger index. *)
Fixpoint run_next (fuel : nat) (eh : nat) (middlewares : list Middleware)
    (inner : list event * outcome) (i : nat) : list event * nat :=
  match fuel with
  | O => ([], i)
  | S fuel' =>
    match middlewares !! i with
    | Some mw =>
      let fix calls (n j : nat) : list event * nat :=
        match n with
        | O => ([], j)
        | S n' =>
          let '(t1, j1) := run_next fuel' eh middlewares inner j in
          let '(t2, j2) := calls n' j1 in
          (t1 ++ t2, j2)
        end in
      let '(t, j) := calls (mw_nexts mw) (S i) in
      (EMiddleware (mw_name mw) :: t ++ handleError eh (mw_result mw), j)
    | None => (inner.1 ++ handleError eh inner.2, S i)
    end
  end.

(** Invoking a request handler: its trace and how its promise settles.  The
    merged handler is [async function (req, res) { let i = -1; ...; next(); }]:
    it resolves once the synchronous [next()] returns; failures inside are
    routed to [handleError] and never reject it. *)
Fixpoint run_handler (eh : nat) (h : RequestHandler) : list event * outcome :=
  match h with
  | HUser name result => ([EHandler name], result)
  | HMerged h' mws =>
    ((run_next (S (length mws)) eh mws (run_handler eh h') 0).1, Resolved)
  end.

(** [mergeHandler(handler, middlewares, getErrorHandler)]. *)
Definition mergeHandler (handler : RequestHandler) (middlewares : list Middleware)
  : RequestHandler := HMerged handler middlewares.

(** ** Route tables *)

(** Result of calling a [RequestPathValidator]: a boolean, or a throw. *)
Inductive match_result :=
| MatchOk (b : bool)
| MatchThrow (e : js_error).

Definition RequestPathValidator := IncomingMessage -> match_result.

Record RequestHandlerContext := {
  handler : RequestHandler;
  isPathValid : RequestPathValidator
}.

(** [RequestHandlersGrouped = { [method: string]: RequestHandlerContext[] }]. *)
Abbreviation RequestHandlersGrouped := (gmap string (list RequestHandlerContext)).

(** [compileAllWithMiddlewares(groupedHandlers, middlewares, getErrorHandler)]. *)
Definition compileAllWithMiddlewares (groupedHandlers : RequestHandlersGrouped)
    (middlewares : list Middleware) : RequestHandlersGrouped :=
  match middlewares with
  | [] => groupedHandlers
  | _ =>
    (fun ctxs => map (fun ctx =>
        {| handler := mergeHandler (handler ctx) middlewares;
           isPathValid := isPathValid ctx |}) ctxs) <$> groupedHandlers
  end.

(** ** Server state *)

(** A not-found or error handler slot holds a handler identity; the
    not-found handler also settles its promise. *)
Record server := {
  errorHandler : nat;
  notFoundHandler : nat * outcome;
  globalMiddleWares : list Middleware;
  groupedHandlers : RequestHandlersGrouped;
  compiledHandlers : RequestHandlersGrouped
}.

(** ** The request listener [flitz] *)

(** [compiledHandlers[req.method]?.find(ctx => ctx.isPathValid(req))]:
    [Array.prototype.find] with a predicate that may throw; also returns the
    number of predicates evaluated.  A returned value is used by its
    truthiness, so a predicate result is a boolean here. *)
Fixpoint find_ctx (req : IncomingMessage) (ctxs : list RequestHandlerContext)
  : nat * (js_error + option RequestHandlerContext) :=
  match ctxs with
  | [] => (0, inr None)
  | ctx :: rest =>
    match isPathValid ctx req with
    | MatchThrow e => (1, inl e)
    | MatchOk true => (1, inr (Some ctx))
    | MatchOk false => let '(n, r) := find_ctx req rest in (S n, r)
    end
  end.

(** The listener:
<<
    try {
      const handler = compiledHandlers[req.method!]?.find(ctx => ctx.isPathValid(req))?.handler;
      if (handler) { await handler(req, res); } else { await notFoundHandler(req, res); }
    } catch (e) { await errorHandler(e, req, res); }
>>
    Returns the number of path validators evaluated and the trace. *)
Definition flitz (s : server) (req : IncomingMessage) : nat * list event :=
  let eh := errorHandler s in
  let not_found :=
    ENotFound (notFoundHandler s).1 :: handleError eh (notFoundHandler s).2 in
  match compiledHandlers s !! method req with
  | None => (0, not_found)
  | Some ctxs =>
    match find_ctx req ctxs with
    | (n, inl e) => (n, [EErrorHandler eh e])
    | (n, inr (Some ctx)) =>
      let '(t, o) := run_handler eh (handler ctx) in (n, t ++ handleError eh o)
    | (n, inr None) => (n, not_found)
    end
  end.

(** ** Registration *)

(** A [RegExp] object: its source and its [test] method. *)
Record RegExp := {
  re_source : string;
  re_test : string -> bool
}.

(** A JavaScript function value, with each use the router can make of it:
    as a [RequestPathValidator], as a terminal [RequestHandler] (it settles
    with [fn_result]), or as a [Middleware] (it calls [next()] [fn_nexts]
    times, then settles with [fn_result]).  [fn_length] is its [length]
    property (its number of declared parameters). *)
Record js_function := {
  fn_id : nat;
  fn_length : nat;
  fn_nexts : nat;
  fn_result : outcome;
  fn_predicate : RequestPathValidator
}.

(** The arguments a registration call can receive ([IArguments]). *)
Inductive js_value :=
| JUndefined
| JNull
| JBool (b : bool)
| JNumber (n : Z)
| JString (s : string)
| JRegExp (r : RegExp)
| JFunction (f : js_function)
| JArray (xs : list js_value)
| JObject (props : list (string * js_value)).

Definition as_handler (f : js_function) : RequestHandler :=
  HUser (fn_id f) (fn_result f).

Definition as_middleware (f : js_function) : Middleware :=
  {| mw_name := fn_id f; mw_nexts := fn_nexts f; mw_result := fn_result f |}.

(** JavaScript truthiness. *)
Definition truthy (v : js_value) : bool :=
  match v with
  | JUndefined | JNull => false
  | JBool b => b
  | JNumber n => bool_decide (n <> 0%Z)
  | JString s => bool_decide (s <> ""%string)
  | _ => true
  end.

Definition is_function (v : js_value) : bool :=
  match v with JFunction _ => true | _ => false end.

(** [typeof v === 'object']. *)
Definition typeof_object (v : js_value) : bool :=
  match v with
  | JNull | JRegExp _ | JArray _ | JObject _ => true
  | _ => false
  end.

(** [args[k]], [undefined] out of range. *)
Definition arg (args : list js_value) (k : nat) : js_value :=
  default JUndefined (args !! k).

(** Property read [o[key]] on an object literal ([undefined] if absent). *)
Fixpoint prop (props : list (string * js_value)) (key : string) : js_value :=
  match props with
  | [] => JUndefined
  | (k, v) :: rest => if bool_decide (k = key) then v else prop rest key
  end.

(** [options.use]: only object literals carry a [use] property. *)
Definition options_use (options : js_value) : js_value :=
  match options with
  | JObject props => prop props "use"
  | _ => JUndefined
  end.

(** Truthiness of [u?.length]. *)
Definition length_truthy (u : js_value) : bool :=
  match u with
  | JArray xs => bool_decide (xs <> [])
  | JString s => bool_decide (s <> ""%string)
  | JFunction f => bool_decide (fn_length f <> 0)
  | JObject props => truthy (prop props "length")
  | _ => false
  end.

(** Exceptions thrown by registration calls. *)
Inductive js_exception :=
| TypeError (message : string).

(** Function values of an array, in order ([None] if some is not one). *)
Fixpoint functions_of (xs : list js_value) : option (list js_function) :=
  match xs with
  | [] => Some []
  | JFunction f :: rest => f' ← functions_of rest; Some (f :: f')
  | _ :: _ => None
  end.

(** [isPathValidByRegex(path)]: [req => path.test(req.url!)]. *)
Definition isPathValidByRegex (path : RegExp) : RequestPathValidator :=
  fun req => MatchOk (re_test path (url req)).

(** [isPathValidByString(path)]: [req => req.url === path]. *)
Definition isPathValidByString (path : string) : RequestPathValidator :=
  fun req => MatchOk (bool_decide (url req = path)).

Definition set_grouped (s : server) (g : RequestHandlersGrouped) : server :=
  {| errorHandler := errorHandler s; notFoundHandler := notFoundHandler s;
     globalMiddleWares := globalMiddleWares s; groupedHandlers := g;
     compiledHandlers := compiledHandlers s |}.

Definition set_globals (s : server) (mws : list Middleware) : server :=
  {| errorHandler := errorHandler s; notFoundHandler := notFoundHandler s;
     globalMiddleWares := mws; groupedHandlers := groupedHandlers s;
     compiledHandlers := compiledHandlers s |}.

(** [recompileHandlers()]. *)
Definition recompileHandlers (s : server) : server :=
  {| errorHandler := errorHandler s; notFoundHandler := notFoundHandler s;
     globalMiddleWares := globalMiddleWares s; groupedHandlers := groupedHandlers s;
     compiledHandlers :=
       compileAllWithMiddlewares (groupedHandlers s) (globalMiddleWares s) |}.

(** The result of a mutating call: a thrown exception or normal return,
    together with the server state after the call (the source mutates the
    state in place, so a throw keeps whatever was mutated before it). *)
Definition call_result := ((js_exception + unit) * server)%type.

(** [createServer()]: the initial state. *)
Definition createServer (defaultErrorHandler : nat)
    (defaultNotFoundHandler : nat * outcome) : server :=
  {| errorHandler := defaultErrorHandler; notFoundHandler := defaultNotFoundHandler;
     globalMiddleWares := []; groupedHandlers := ∅; compiledHandlers := ∅ |}.

(** The path validator [withMethod] selects for a checked [path]. *)
Definition path_validator (path : js_value) : RequestPathValidator :=
  match path with
  | JFunction f => fn_predicate f
  | JRegExp r => isPathValidByRegex r
  | JString p => isPathValidByString p
  | _ => fun _ => MatchOk false  (* excluded by the type check of [withMethod] *)
  end.

(** [withMethod({ method, args, ... })]: the shared routine behind
    [connect], [delete], [get], ..., [trace]. *)
Definition withMethod (method : string) (args : list js_value) (s : server)
  : call_result :=
  let path := arg args 0 in
  if negb (match path with JString _ | JRegExp _ | JFunction _ => true | _ => false end)
  then (inl (TypeError "path must be of type string, function or RegEx"), s) else
  let '(optionsOrMiddlewares, handler) :=
    if bool_decide (length args < 3) then (JUndefined, arg args 1)
    else (arg args 1, arg args 2) in
  match handler with
  | JFunction hf =>
    let options :=
      if truthy optionsOrMiddlewares then
        match optionsOrMiddlewares with
        | JArray xs => JObject [("use", JArray xs)]          (* list of middlewares *)
        | JFunction f => JObject [("use", JArray [JFunction f])] (* single middleware *)
        | o => o                                              (* options object *)
        end
      else JObject [] in
    if negb (typeof_object options)
    then (inl (TypeError "optionsOrMiddlewares must be an object or array"), s) else
    let use := options_use options in
    (* if (options.use?.length) { if (!options.use.every(mw => typeof mw === 'function')) throw ... } *)
    let checked : js_exception + list js_function :=
      if length_truthy use then
        match use with
        | JArray xs =>
          match functions_of xs with
          | Some fs => inr fs
          | None => inl (TypeError "optionsOrMiddlewares must be an array of functions")
          end
        (* a non-array [use] has no [every] method: the call throws *)
        | _ => inl (TypeError "options.use.every is not a function")
        end
      else inr [] in
    match checked with
    | inl ex => (inl ex, s)
    | inr fs =>
      (* if (!opts.groupedHandlers[opts.method]) opts.groupedHandlers[opts.method] = []; *)
      let g0 := groupedHandlers s in
      let bucket := default [] (g0 !! method) in
      (* if (options.use?.length) handler = mergeHandler(handler, options.use.map(mw => mw), ...) *)
      let h := match fs with
               | [] => as_handler hf
               | _ => mergeHandler (as_handler hf) (map as_middleware fs)
               end in
      let isPathValid := path_validator path in
      let s1 := set_grouped s (<[method := bucket ++ [{| handler := h; isPathValid := isPathValid |}]]> g0) in
      (inr tt, recompileHandlers s1)
    end
  | _ => (inl (TypeError "handler must be a function"), s)
  end.

(** [flitz.use(...middlewares)]. *)
Definition use (middlewares : list js_value) (s : server) : call_result :=
  match functions_of middlewares with
  | None => (inl (TypeError "middlewares must be a list of functions"), s)
  | Some fs =>
    (inr tt, recompileHandlers (set_globals s (globalMiddleWares s ++ map as_middleware fs)))
  end.

(** [flitz.setErrorHandler(handler)] and [flitz.setNotFoundHandler(handler)]. *)
Definition setErrorHandler (handler : js_value) (s : server) : call_result :=
  match handler with
  | JFunction f =>
    (inr tt, {| errorHandler := fn_id f; notFoundHandler := notFoundHandler s;
                globalMiddleWares := globalMiddleWares s;
                groupedHandlers := groupedHandlers s;
                compiledHandlers := compiledHandlers s |})
  | _ => (inl (TypeError "handler must be a function"), s)
  end.

Definition setNotFoundHandler (handler : js_value) (s : server) : call_result :=
  match handler with
  | JFunction f =>
    (inr tt, {| errorHandler := errorHandler s;
                notFoundHandler := (fn_id f, fn_result f);
                globalMiddleWares := globalMiddleWares s;
                groupedHandlers := groupedHandlers s;
                compiledHandlers := compiledHandlers s |})
  | _ => (inl (TypeError "handler must be a function"), s)
  end.

(** The configuration calls of a server, in the order a program makes them. *)
Inductive api_call :=
| CallMethod (method : string) (args : list js_value)
| CallUse (middlewares : list js_value)
| CallSetErrorHandler (handler : js_value)
| CallSetNotFoundHandler (handler : js_value).

Definition step (c : api_call) (s : server) : call_result :=
  match c with
  | CallMethod m args => withMethod m args s
  | CallUse mws => use mws s
  | CallSetErrorHandler h => setErrorHandler h s
  | CallSetNotFoundHandler h => setNotFoundHandler h s
  end.

(** Running a program's calls; a thrown call is caught by the caller and
    the program goes on with the state the call left. *)
Fixpoint run_calls (cs : list api_call) (s : server) : server :=
  match cs with
  | [] => s
  | c :: rest => run_calls rest (step c s).2
  end.

(** ** The cached static file handler *)

(** A directory entry as [fs.statSync] reports it (symbolic links are
    followed): a regular file with its bytes, a directory with its entries
    in [fs.readdirSync] order, or anything else. *)
Inductive fs_entry :=
| FsFile (name : string) (data : list Byte.byte)
| FsDir (name : string) (items : list fs_entry)
| FsOther (name : string).

Definition entry_name (e : fs_entry) : string :=
  match e with FsFile n _ | FsDir n _ | FsOther n => n end.

(** [FileWithData = { [path: string]: Buffer }]. *)
Abbreviation FileWithData := (gmap string (list Byte.byte)).

(** [basePath.endsWith('/')]. *)
Definition endsWith_slash (s : string) : bool :=
  bool_decide (String.substring (String.length s - 1) 1 s = "/"%string).

(** The key of a file at relative path [rel] (the segments of
    [relativePath(rootDir, fullPath)], joined by ['/']):
    [basePath + bpSuffix + relativePath(rootDir, fullPath)]. *)
Definition file_key (basePath : string) (rel : list string) : string :=
  let bpSuffix := if endsWith_slash basePath then ""%string else "/"%string in
  (basePath +:+ bpSuffix +:+ String.concat "/" rel)%string.

(** [loadAllFiles(dir, files, rootDir, basePath)]; [rel] is the path of
    [dir] relative to [rootDir], [files] the map filled in place. *)
Fixpoint loadAllFiles_entry (basePath : string) (rel : list string)
    (e : fs_entry) (files : FileWithData) : FileWithData :=
  match e with
  | FsFile n data => <[file_key basePath (rel ++ [n]) := data]> files
  | FsDir n items =>
    (fix loop (items : list fs_entry) (files : FileWithData) : FileWithData :=
       match items with
       | [] => files
       | it :: rest => loop rest (loadAllFiles_entry basePath (rel ++ [n]) it files)
       end) items files
  | FsOther _ => files
  end.

Definition loadAllFiles (basePath : string) (rel : list string)
    (items : list fs_entry) (files : FileWithData) : FileWithData :=
  fold_left (fun files it => loadAllFiles_entry basePath rel it files) items files.

(** What a handler writes: [res.writeHead(status)], the [res.write] chunks,
    then [res.end()]. *)
Record static_response := {
  status : nat;
  body : list (list Byte.byte)
}.

(** [createStaticHandlerCached(rootDir, basePath)]: the files of [rootDir]
    (its entries [root]) are loaded once; the handler serves [files[req.url]].
    A [Buffer] is an object, so [if (data)] holds for every loaded file.
    [files] is a plain object; the targets Node parses ("/...", "*",
    absolute URLs, "host:port") never name an [Object.prototype] property,
    so [files[req.url]] is a lookup among the loaded keys. *)
Definition createStaticHandlerCached (root : list fs_entry) (basePath : string)
  : IncomingMessage -> static_response :=
  let files := loadAllFiles basePath [] root ∅ in
  fun req =>
    match files !! url req with
    | Some data => {| status := 200; body := [data] |}
    | None => {| status := 404; body := [] |}
    end.

(** [createStaticPathValidator(basePath)]: [req => req.url!.startsWith(basePath)]. *)
Definition createStaticPathValidator (basePath : string) : RequestPathValidator :=
  fun req => MatchOk (String.prefix basePath (url req)).


(** The regular files under a directory, with their relative paths, in the
    order [loadAllFiles] visits them. *)
Fixpoint files_of_entry (rel : list string) (e : fs_entry)
  : list (list string * list Byte.byte) :=
  match e with
  | FsFile n data => [(rel ++ [n], data)]
  | FsDir n items => concat (map (files_of_entry (rel ++ [n])) items)
  | FsOther _ => []
  end.

Definition files_of (rel : list string) (items : list fs_entry)
  : list (list string * list Byte.byte) :=
  concat (map (files_of_entry rel) items).

Fixpoint has_slash (s : string) : bool :=
  match s with
  | EmptyString => false
  | String c rest => bool_decide (c = Ascii.ascii_of_nat 47) || has_slash rest
  end.

(** A well-formed directory tree: within each directory the names are
    distinct and no name contains ['/']. *)
Fixpoint wf_entry (e : fs_entry) : bool :=
  match e with
  | FsDir n items =>
    bool_decide (NoDup (map entry_name items)) &&
    forallb (fun it => negb (has_slash (entry_name it))) items &&
    forallb wf_entry items
  | _ => true
  end.

Definition wf_root (items : list fs_entry) : bool :=
  bool_decide (NoDup (map entry_name items)) &&
  forallb (fun it => negb (has_slash (entry_name it))) items &&
  forallb wf_entry items.

(** ** Helper notions for the proofs *)

Abbreviation rejects_none req := (Forall (fun c => isPathValid c req = MatchOk false)).

Definition compiled_inv (s : server) : Prop :=
  compiledHandlers s = compileAllWithMiddlewares (groupedHandlers s) (globalMiddleWares s).

(** A middleware that calls [next()] once and then resolves. *)
Definition passes (mw : Middleware) : Prop := mw_nexts mw = 1 /\ mw_result mw = Resolved.

Abbreviation mw_events mws := (map (fun mw => EMiddleware (mw_name mw)) mws).

Definition valid_path (p : js_value) : bool :=
  match p with JString _ | JRegExp _ | JFunction _ => true | _ => false end.

(** The route [withMethod] appends: handler and path validator. *)
Definition appended_table (m : string) (ctx : RequestHandlerContext) (s : server)
  : RequestHandlersGrouped :=
  <[m := default [] (groupedHandlers s !! m) ++ [ctx]]> (groupedHandlers s).

(** The compiled context of a raw one. *)
Definition compile_ctx (gs : list Middleware) (ctx : RequestHandlerContext)
  : RequestHandlerContext :=
  match gs with
  | [] => ctx
  | _ => {| handler := mergeHandler (handler ctx) gs; isPathValid := isPathValid ctx |}
  end.

Abbreviation no_slash x := (has_slash x = false).

Definition slash_or_empty (x : string) : Prop :=
  x = EmptyString \/ exists y, x = String (Ascii.ascii_of_nat 47) y.

Definition concat_tail (rest : list string) : string :=
  match rest with [] => EmptyString | _ => ("/" +:+ String.concat "/" rest)%string end.


(** An event with its error-handler call, if any, sent to [eh] instead. *)
Definition retarget (eh : nat) (ev : event) : event :=
  match ev with
  | EErrorHandler _ e => EErrorHandler eh e
  | _ => ev
  end.

(** The whole trace of invoking a handler: its own events, then the
    error-handler call its rejection causes. *)
Definition full_trace (eh : nat) (h : RequestHandler) : list event :=
  (run_handler eh h).1 ++ handleError eh (run_handler eh h).2.

(** ** Sample values *)

Definition fn (id nexts : nat) (result : outcome) : js_function :=
  {| fn_id := id; fn_length := 3; fn_nexts := nexts; fn_result := result;
     fn_predicate := fun _ => MatchOk true |}.

Definition get_req (u : string) : IncomingMessage :=
  {| method := "GET"; url := u; headers := [] |}.

Definition s0 : server := createServer 100 (101, Resolved).

(** Two routes on the same path, registered in this order. *)
Definition two_routes : server :=
  run_calls [CallMethod "GET" [JString "/a"; JFunction (fn 1 0 Resolved)];
             CallMethod "GET" [JString "/a"; JFunction (fn 2 0 Resolved)]] s0.

Definition route_ctx (id : nat) (p : string) : RequestHandlerContext :=
  {| handler := HUser id Resolved; isPathValid := isPathValidByString p |}.

(** A route whose path predicate throws, after a route on "/a". *)
Definition throwing_routes : server :=
  run_calls [CallMethod "GET" [JString "/a"; JFunction (fn 1 0 Resolved)];
             CallMethod "GET"
               [JFunction {| fn_id := 7; fn_length := 1; fn_nexts := 0;
                             fn_result := Resolved;
                             fn_predicate := fun _ => MatchThrow "boom" |};
                JFunction (fn 2 0 Resolved)]] s0.

(** A server with two global middlewares, and a route registered on it with
    one route-scoped middleware. *)
Definition with_globals : server :=
  run_calls [CallUse [JFunction (fn 3 1 Resolved); JFunction (fn 4 1 Resolved)]] s0.

Definition route_args : list js_value :=
  [JString "/b"; JArray (map JFunction [fn 5 1 Resolved]); JFunction (fn 2 0 Resolved)].

Definition with_route : server := (withMethod "GET" route_args with_globals).2.

Definition failing_mw : Middleware := {| mw_name := 2; mw_nexts := 0; mw_result := Rejected "bad" |}.

(** The global middlewares a program adds: the arguments of its [use]
    calls that do not throw, in call order. *)
Fixpoint use_middlewares (cs : list api_call) : list Middleware :=
  match cs with
  | [] => []
  | CallUse mws :: rest =>
    match functions_of mws with
    | Some fs => map as_middleware fs
    | None => []
    end ++ use_middlewares rest
  | _ :: rest => use_middlewares rest
  end.

(** The program without its [use] calls. *)
Definition without_use (cs : list api_call) : list api_call :=
  List.filter (fun c => match c with CallUse _ => false | _ => true end) cs.

(** The path part of a request target: [url] up to its first ['?']. *)
Fixpoint request_path (u : string) : string :=
  match u with
  | EmptyString => EmptyString
  | String c rest =>
    if bool_decide (c = Ascii.ascii_of_nat 63) then EmptyString
    else String c (request_path rest)
  end.

(** The route on "/a" and a request for path "/a" with a query string. *)
Definition route_a : server :=
  run_calls [CallMethod "GET" [JString "/a"; JFunction (fn 1 0 Resolved)]] s0.

Definition query_req : IncomingMessage :=
  {| method := "GET"; url := "/a?x=1"; headers := [] |}.

(** Induction on directory trees, with a hypothesis for every entry of a
    directory. *)
Definition fs_entry_rect_all (P : fs_entry -> Prop)
    (Hfile : forall n data, P (FsFile n data))
    (Hdir : forall n items, Forall P items -> P (FsDir n items))
    (Hother : forall n, P (FsOther n)) : forall e, P e :=
  fix go (e : fs_entry) : P e :=
    match e with
    | FsFile n data => Hfile n data
    | FsDir n items =>
      Hdir n items
        ((fix go_list (l : list fs_entry) : Forall P l :=
            match l with
            | [] => List.Forall_nil P
            | x :: xs => List.Forall_cons P x xs (go x) (go_list xs)
            end) items)
    | FsOther n => Hother n
    end.

(** The spec's example: [a.txt] and [sub/b.txt] under "/static". *)
Definition static_root : list fs_entry :=
  [FsFile "a.txt" [Byte.x61]; FsDir "sub" [FsFile "b.txt" [Byte.x62; Byte.x63]]].

(** One step of the loading loop: [files[key] = fs.readFileSync(fullPath)]. *)
Definition insert_file (basePath : string) (files : FileWithData)
    (f : list string * list Byte.byte) : FileWithData :=
  <[file_key basePath f.1 := f.2]> files.

Example sample_dispatch :
  flitz (run_calls [CallMethod "GET" [JString "/a"; JFunction (fn 1 0 Resolved)];
                    CallMethod "GET" [JString "/b"; JArray [JFunction (fn 5 1 Resolved)];
                                      JFunction (fn 2 0 Resolved)];
                    CallUse [JFunction (fn 3 1 Resolved); JFunction (fn 4 1 Resolved)]] s0)
        (get_req "/b")
  = (2, [EMiddleware 3; EMiddleware 4; EMiddleware 5; EHandler 2]).
Proof. vm_compute. reflexivity. Qed.
Example sample_static :
  createStaticHandlerCached static_root "/static" (get_req "/static/sub/b.txt")
    = {| status := 200; body := [[Byte.x62; Byte.x63]] |} /\
  createStaticHandlerCached static_root "/static/" (get_req "/static/a.txt")
    = {| status := 200; body := [[Byte.x61]] |} /\
  createStaticHandlerCached static_root "/static" (get_req "/static/missing.txt")
    = {| status := 404; body := [] |}.
Proof. vm_compute. auto. Qed.

Example sample_not_found :
  flitz (run_calls [CallMethod "GET" [JString "/a"; JFunction (fn 1 0 Resolved)]] s0)
        (get_req "/c")
  = (1, [ENotFound 101]).
Proof. vm_compute. reflexivity. Qed.

(** ** The listener: first match wins *)

Lemma find_ctx_skip req pre rest :
  rejects_none req pre ->
  find_ctx req (pre ++ rest) =
    let '(n, r) := find_ctx req rest in (length pre + n, r).
Proof.
  induction 1 as [|c pre Hc Hpre IH]; simpl.
  - by destruct (find_ctx req rest).
  - rewrite Hc, IH. by destruct (find_ctx req rest).
Qed.

Lemma find_ctx_none req ctxs :
  rejects_none req ctxs -> find_ctx req ctxs = (length ctxs, inr None).
Proof.
  induction 1 as [|c ctxs Hc Hall IH]; simpl; [done|].
  by rewrite Hc, IH.
Qed.

(** ** The compiled table invariant *)

Lemma recompile_inv s : compiled_inv (recompileHandlers s).
Proof. done. Qed.

Lemma withMethod_cases m args s :
  (withMethod m args s).2 = s \/
  ((withMethod m args s).1 = inr tt /\
   exists g, (withMethod m args s).2 = recompileHandlers (set_grouped s g)).
Proof.
  unfold withMethod.
  destruct (negb _); [by left|].
  destruct (if bool_decide (length args < 3) then _ else _) as [o h].
  destruct h as [| | | | | |hf| |]; try by left.
  destruct (negb (typeof_object _)); [by left|].
  destruct (if length_truthy _ then _ else _) as [ex|fs]; [by left|].
  right. split; [done|]. eexists. reflexivity.
Qed.

Lemma step_inv c s : compiled_inv s -> compiled_inv (step c s).2.
Proof.
  intros H. destruct c as [m args|mws|h|h]; simpl.
  - destruct (withMethod_cases m args s) as [->|[_ [g ->]]]; [done|apply recompile_inv].
  - unfold use. case_match; [apply recompile_inv|done].
  - unfold setErrorHandler. case_match; done.
  - unfold setNotFoundHandler. case_match; done.
Qed.

Lemma run_calls_inv cs s : compiled_inv s -> compiled_inv (run_calls cs s).
Proof.
  revert s. induction cs as [|c cs IH]; intros s H; simpl; [done|].
  apply IH, step_inv, H.
Qed.

Lemma createServer_inv eh nf : compiled_inv (createServer eh nf).
Proof. done. Qed.

(** ** Handler chains *)

Lemma run_next_pass fuel eh (mws : list Middleware) inner i :
  Forall passes mws -> i <= length mws -> length mws - i < fuel ->
  run_next fuel eh mws inner i =
    (mw_events (drop i mws) ++ inner.1 ++ handleError eh inner.2, S (length mws)).
Proof.
  intros Hall. revert i. induction fuel as [|fuel IH]; intros i Hi Hf; [lia|].
  simpl. destruct (mws !! i) as [mw|] eqn:E.
  - assert (i < length mws) by (apply lookup_lt_Some in E; done).
    destruct (proj1 (Forall_lookup _ _) Hall i mw E) as [Hn Hr].
    rewrite Hn, Hr. simpl. rewrite (IH (S i)) by lia. simpl.
    rewrite (drop_S _ _ _ E). simpl. by rewrite !app_nil_r.
  - apply lookup_ge_None in E. assert (i = length mws) as -> by lia.
    by rewrite drop_all.
Qed.

Lemma run_handler_merged_pass eh h (mws : list Middleware) :
  Forall passes mws ->
  run_handler eh (HMerged h mws) =
    (mw_events mws ++ (run_handler eh h).1 ++ handleError eh (run_handler eh h).2, Resolved).
Proof.
  intros Hall.
  change (run_handler eh (HMerged h mws))
    with ((run_next (S (length mws)) eh mws (run_handler eh h) 0).1, Resolved).
  rewrite run_next_pass by (done || lia). done.
Qed.

Lemma run_next_fail fuel eh (pre : list Middleware) m post inner i e :
  Forall passes pre -> mw_nexts m = 0 -> mw_result m = Rejected e ->
  i <= length pre -> length pre - i < fuel ->
  run_next fuel eh (pre ++ m :: post) inner i =
    (mw_events (drop i pre) ++ [EMiddleware (mw_name m); EErrorHandler eh e], S (length pre)).
Proof.
  intros Hall Hn Hr. revert i. induction fuel as [|fuel IH]; intros i Hi Hf; [lia|].
  simpl. destruct (decide (i < length pre)) as [Hlt|Hge].
  - destruct (lookup_lt_is_Some_2 pre i Hlt) as [mw E].
    rewrite (lookup_app_l_Some _ _ _ _ E).
    destruct (proj1 (Forall_lookup _ _) Hall i mw E) as [Hn' Hr'].
    rewrite Hn', Hr'. simpl. rewrite (IH (S i)) by lia. simpl.
    rewrite (drop_S _ _ _ E). simpl. by rewrite !app_nil_r.
  - assert (i = length pre) as -> by lia.
    rewrite list_lookup_middle by done. rewrite Hn, Hr. simpl.
    by rewrite drop_all.
Qed.

(** ** Successful registrations *)

Lemma functions_of_map (fs : list js_function) : functions_of (map JFunction fs) = Some fs.
Proof. induction fs as [|f fs IH]; simpl; [done|]. by rewrite IH. Qed.

Lemma withMethod_handler_only m p hf s :
  valid_path p = true ->
  withMethod m [p; JFunction hf] s =
    (inr tt, recompileHandlers (set_grouped s (appended_table m
      {| handler := as_handler hf; isPathValid := path_validator p |} s))).
Proof. destruct p; try discriminate; intros _; reflexivity. Qed.

Lemma withMethod_middlewares m p (rs : list js_function) hf s :
  valid_path p = true ->
  withMethod m [p; JArray (map JFunction rs); JFunction hf] s =
    (inr tt, recompileHandlers (set_grouped s (appended_table m
      {| handler := match rs with
                    | [] => as_handler hf
                    | _ => mergeHandler (as_handler hf) (map as_middleware rs)
                    end;
         isPathValid := path_validator p |} s))).
Proof.
  destruct p; try discriminate; intros _; (destruct rs as [|r0 rs]; [reflexivity|]);
    unfold withMethod; simpl; rewrite functions_of_map; reflexivity.
Qed.

Lemma compile_lookup (g : RequestHandlersGrouped) gs m :
  compileAllWithMiddlewares g gs !! m = map (compile_ctx gs) <$> g !! m.
Proof.
  destruct gs as [|x gs]; simpl.
  - destruct (g !! m); simpl; [f_equal; symmetry; apply map_id|done].
  - by rewrite lookup_fmap.
Qed.

Lemma run_compile_ctx eh gs ctx :
  Forall passes gs ->
  (let '(t, o) := run_handler eh (handler (compile_ctx gs ctx)) in t ++ handleError eh o) =
    mw_events gs ++ (run_handler eh (handler ctx)).1 ++ handleError eh (run_handler eh (handler ctx)).2.
Proof.
  intros Hgs. destruct gs as [|g gs].
  - simpl. by destruct (run_handler eh (handler ctx)).
  - change (handler (compile_ctx (g :: gs) ctx)) with (HMerged (handler ctx) (g :: gs)).
    rewrite (run_handler_merged_pass eh (handler ctx) (g :: gs) Hgs). simpl.
    by rewrite !app_nil_r.
Qed.

Lemma run_route_handler eh (rs : list js_function) hf :
  Forall (fun f => fn_nexts f = 1 /\ fn_result f = Resolved) rs ->
  fn_result hf = Resolved ->
  run_handler eh (match rs with
                  | [] => as_handler hf
                  | _ => mergeHandler (as_handler hf) (map as_middleware rs)
                  end) =
    (map (fun f => EMiddleware (fn_id f)) rs ++ [EHandler (fn_id hf)], Resolved).
Proof.
  intros Hrs Hhf. destruct rs as [|r rs].
  - simpl. unfold as_handler. by rewrite Hhf.
  - unfold mergeHandler. rewrite run_handler_merged_pass.
    + simpl. unfold as_handler. rewrite Hhf. simpl. rewrite ?app_nil_r, ?map_map. reflexivity.
    + apply Forall_fmap. eapply Forall_impl; [exact Hrs|]. intros f [H1 H2]. by split.
Qed.

Lemma rejects_none_compile req gs ctxs :
  rejects_none req ctxs -> rejects_none req (map (compile_ctx gs) ctxs).
Proof.
  intros H. apply Forall_fmap. eapply Forall_impl; [exact H|].
  intros c Hc. destruct gs; done.
Qed.

(** C2: registering handler [H] with route-scoped middlewares [r1, ...] on a
    server whose global middleware list is [g1, ...] yields, for a request
    dispatched to that route, the invocation sequence [g1, ..., r1, ..., H]
    when every stage calls [next()] once and none fails. *)
Theorem route_chain_order (s s' : server) (m : string) (p : js_value)
    (rs : list js_function) (hf : js_function) (req : IncomingMessage) :
  withMethod m [p; JArray (map JFunction rs); JFunction hf] s = (inr tt, s') ->
  Forall (fun f => fn_nexts f = 1 /\ fn_result f = Resolved) rs ->
  Forall passes (globalMiddleWares s) ->
  fn_result hf = Resolved ->
  method req = m ->
  rejects_none req (default [] (groupedHandlers s !! m)) ->
  path_validator p req = MatchOk true ->
  (flitz s' req).2 =
    mw_events (globalMiddleWares s) ++
    map (fun f => EMiddleware (fn_id f)) rs ++ [EHandler (fn_id hf)].
Proof.
  intros Hw Hrs Hgs Hhf Hm Hpre Hp.
  assert (valid_path p = true) as Hv
    by (destruct p; try reflexivity; unfold withMethod in Hw; simpl in Hw; discriminate).
  rewrite withMethod_middlewares in Hw by exact Hv. injection Hw as <-.
  unfold flitz. cbn [compiledHandlers recompileHandlers groupedHandlers set_grouped
                     globalMiddleWares errorHandler].
  rewrite compile_lookup. unfold appended_table. rewrite Hm, lookup_insert_eq. simpl.
  rewrite map_app.
  rewrite (find_ctx_skip req _ _ (rejects_none_compile req _ _ Hpre)). simpl.
  assert (Hc : forall gs c, isPathValid (compile_ctx gs c) = isPathValid c) by (intros [|??] ?; done).
  rewrite Hc. simpl. rewrite Hp. simpl.
  pose proof (run_compile_ctx (errorHandler s) (globalMiddleWares s)
    {| handler := match rs with
                  | [] => as_handler hf
                  | _ => mergeHandler (as_handler hf) (map as_middleware rs)
                  end;
       isPathValid := path_validator p |} Hgs) as Hr.
  simpl in Hr. rewrite (run_route_handler _ rs hf Hrs Hhf) in Hr. simpl in Hr.
  rewrite app_nil_r in Hr. rewrite <- Hr.
  by destruct (run_handler _ _).
Qed.

(** C4: in a chain built by [mergeHandler], when the middlewares before a
    given one call [next()] and that one rejects without calling [next()],
    the error handler is invoked exactly once, with that failure, and neither
    a later middleware nor the wrapped handler is invoked. *)
Theorem chain_failure_stops (eh : nat) (h : RequestHandler) (pre : list Middleware)
    (mw : Middleware) (post : list Middleware) (e : js_error) :
  Forall passes pre ->
  mw_nexts mw = 0 ->
  mw_result mw = Rejected e ->
  run_handler eh (HMerged h (pre ++ mw :: post)) =
    (mw_events pre ++ [EMiddleware (mw_name mw); EErrorHandler eh e], Resolved).
Proof.
  intros Hpre Hn Hr.
  change (run_handler eh (HMerged h (pre ++ mw :: post)))
    with ((run_next (S (length (pre ++ mw :: post))) eh (pre ++ mw :: post)
             (run_handler eh h) 0).1, Resolved).
  rewrite (run_next_fail _ eh pre mw post _ 0 e Hpre Hn Hr) by
    (rewrite ?length_app; simpl; lia).
  done.
Qed.

Lemma withMethod_grouped m args s t :
  groupedHandlers s = groupedHandlers t ->
  groupedHandlers (withMethod m args s).2 = groupedHandlers (withMethod m args t).2.
Proof.
  intros H. unfold withMethod.
  destruct (negb _); [done|].
  destruct (if bool_decide (length args < 3) then _ else _) as [o h].
  destruct h as [| | | | | |hf| |]; try done.
  destruct (negb (typeof_object _)); [done|].
  destruct (if length_truthy _ then _ else _) as [ex|fs]; [done|].
  simpl. by rewrite H.
Qed.

Lemma withMethod_globals m args s :
  globalMiddleWares (withMethod m args s).2 = globalMiddleWares s.
Proof. destruct (withMethod_cases m args s) as [->|[_ [g ->]]]; done. Qed.

Lemma run_calls_grouped cs s t :
  groupedHandlers s = groupedHandlers t ->
  groupedHandlers (run_calls cs s) = groupedHandlers (run_calls (without_use cs) t).
Proof.
  revert s t. induction cs as [|c cs IH]; intros s t H; simpl; [done|].
  destruct c as [m args|mws|h|h]; simpl.
  - apply IH, withMethod_grouped, H.
  - apply IH.
    unfold use. case_match; simpl; done.
  - apply IH.
    unfold setErrorHandler. destruct h; done.
  - apply IH.
    unfold setNotFoundHandler. destruct h; done.
Qed.

Lemma run_calls_globals cs s :
  globalMiddleWares (run_calls cs s) = globalMiddleWares s ++ use_middlewares cs.
Proof.
  revert s. induction cs as [|c cs IH]; intros s; simpl; [by rewrite app_nil_r|].
  rewrite IH. destruct c as [m args|mws|h|h]; simpl.
  - by rewrite withMethod_globals.
  - unfold use. case_match; simpl; by rewrite ?app_assoc, ?app_nil_r.
  - unfold setErrorHandler. by destruct h.
  - unfold setNotFoundHandler. by destruct h.
Qed.

(** C3: after any program of registrations and [use] calls, the global
    middleware list is every middleware passed to [use], once each, in call
    order; the raw table is the one the registrations alone build (no global
    wrapping is ever stored in it); and the compiled table is the raw table
    with every route's handler wrapped once with that whole list. *)
Theorem compiled_table_after_calls (eh : nat) (nf : nat * outcome) (cs : list api_call) :
  globalMiddleWares (run_calls cs (createServer eh nf)) = use_middlewares cs /\
  groupedHandlers (run_calls cs (createServer eh nf)) =
    groupedHandlers (run_calls (without_use cs) (createServer eh nf)) /\
  compiledHandlers (run_calls cs (createServer eh nf)) =
    compileAllWithMiddlewares (groupedHandlers (run_calls cs (createServer eh nf)))
      (use_middlewares cs).
Proof.
  assert (Hg : globalMiddleWares (run_calls cs (createServer eh nf)) = use_middlewares cs)
    by (rewrite run_calls_globals; done).
  split; [exact Hg|]. split; [by apply run_calls_grouped|].
  rewrite <- Hg. apply run_calls_inv, createServer_inv.
Qed.

Lemma route_chain_order_witness :
  (flitz with_route (get_req "/b")).2 =
    [EMiddleware 3; EMiddleware 4] ++ [EMiddleware 5] ++ [EHandler 2].
Proof.
  apply (route_chain_order with_globals with_route "GET" (JString "/b")
           [fn 5 1 Resolved] (fn 2 0 Resolved) (get_req "/b")).
  - vm_compute. reflexivity.
  - constructor; [split; reflexivity|constructor].
  - constructor; [split; reflexivity|].
    constructor; [split; reflexivity|constructor].
  - reflexivity.
  - reflexivity.
  - vm_compute. constructor.
  - reflexivity.
Defined.

Lemma chain_failure_stops_witness :
  run_handler 100 (HMerged (HUser 9 Resolved)
                     ([as_middleware (fn 1 1 Resolved)] ++ failing_mw ::
                      [as_middleware (fn 3 1 Resolved)])) =
    ([EMiddleware 1] ++ [EMiddleware 2; EErrorHandler 100 "bad"], Resolved).
Proof.
  apply (chain_failure_stops 100 (HUser 9 Resolved) [as_middleware (fn 1 1 Resolved)]
           failing_mw [as_middleware (fn 3 1 Resolved)] "bad").
  - constructor; [split; reflexivity|constructor].
  - reflexivity.
  - reflexivity.
Defined.

Lemma withMethod_ok m args s s' :
  withMethod m args s = (inr tt, s') ->
  exists h, s' = recompileHandlers (set_grouped s (appended_table m
    {| handler := h; isPathValid := path_validator (arg args 0) |} s)).
Proof.
  unfold withMethod.
  destruct (negb _); [discriminate|].
  destruct (if bool_decide (length args < 3) then _ else _) as [o h].
  destruct h as [| | | | | |hf| |]; try discriminate.
  destruct (negb (typeof_object _)); [discriminate|].
  destruct (if length_truthy _ then _ else _) as [ex|fs]; [discriminate|].
  intros Hw. injection Hw as <-. eexists. reflexivity.
Qed.

(** C5 (as the code does it): the only check on a path is its type.  The
    empty string is a string, so [withMethod] accepts it: the call returns
    normally, appends a route whose path validator is [req.url === ""], and
    rebuilds the compiled table. *)
Theorem withMethod_empty_path (m : string) (hf : js_function) (s : server) :
  withMethod m [JString ""; JFunction hf] s =
    (inr tt, recompileHandlers (set_grouped s (appended_table m
      {| handler := as_handler hf; isPathValid := isPathValidByString "" |} s))).
Proof. apply withMethod_handler_only. reflexivity. Qed.

(** C5: registering the empty string does not fail: it returns normally
    and adds a route to the table. *)
Lemma withMethod_empty_path_counterexample :
  (withMethod "GET" [JString ""; JFunction (fn 1 0 Resolved)] s0).1 = inr tt /\
  length (default [] (groupedHandlers (withMethod "GET" [JString ""; JFunction (fn 1 0 Resolved)] s0).2
                        !! "GET")) = 1 /\
  groupedHandlers s0 !! "GET" = None.
Proof. vm_compute. auto. Qed.

(** C6 (as the code does it): a route registered with a string [p] has the
    path validator [req.url === p]: it compares the whole request target,
    query string included, with [p]; headers play no part. *)
Theorem string_route_validator (m p : string) (rest : list js_value) (s s' : server) :
  withMethod m (JString p :: rest) s = (inr tt, s') ->
  exists pre ctx,
    groupedHandlers s' !! m = Some (pre ++ [ctx]) /\
    forall req, isPathValid ctx req = MatchOk (bool_decide (url req = p)).
Proof.
  intros Hw. destruct (withMethod_ok _ _ _ _ Hw) as [h ->].
  exists (default [] (groupedHandlers s !! m)), {| handler := h; isPathValid := path_validator (JString p) |}.
  split.
  - simpl. unfold appended_table. by rewrite lookup_insert_eq.
  - intros req. reflexivity.
Qed.

Lemma string_route_validator_witness :
  exists pre ctx,
    groupedHandlers route_a !! "GET" = Some (pre ++ [ctx]) /\
    forall req, isPathValid ctx req = MatchOk (bool_decide (url req = "/a")).
Proof.
  apply (string_route_validator "GET" "/a" [JFunction (fn 1 0 Resolved)] s0 route_a).
  vm_compute. reflexivity.
Defined.

(** C6: a request whose path is "/a" but whose target carries a query
    string is not matched by the route registered on "/a": the listener
    falls through to the not-found handler. *)
Lemma string_route_query_counterexample :
  request_path (url query_req) = "/a" /\
  flitz route_a query_req = (1, [ENotFound 101]).
Proof. split; vm_compute; reflexivity. Qed.

(** C7: a registration whose path is not a string, [RegExp] or function,
    or whose handler is not a function, throws a [TypeError] and leaves the
    whole server state (raw table, compiled table, everything) unchanged. *)
Theorem withMethod_invalid_unchanged (m : string) (args : list js_value) (s : server) :
  valid_path (arg args 0) = false \/
  is_function (if bool_decide (length args < 3) then arg args 1 else arg args 2) = false ->
  exists msg, withMethod m args s = (inl (TypeError msg), s).
Proof.
  unfold withMethod. intros [H|H].
  - destruct (arg args 0); try discriminate; eauto.
  - destruct (arg args 0); eauto;
      destruct (bool_decide (length args < 3)); simpl in *;
      repeat case_match; simplify_eq/=; eauto.
Qed.

Lemma withMethod_invalid_unchanged_witness :
  exists msg, withMethod "GET" [JNumber 5; JFunction (fn 1 0 Resolved)] with_globals =
              (inl (TypeError msg), with_globals).
Proof.
  apply withMethod_invalid_unchanged. left. reflexivity.
Defined.

(** ** The cached static handler *)

Lemma load_entry_fold basePath e : forall rel files,
  loadAllFiles_entry basePath rel e files =
    fold_left (insert_file basePath) (files_of_entry rel e) files.
Proof.
  induction e as [n data|n items IH|n] using fs_entry_rect_all; intros rel files; simpl.
  - done.
  - revert files. induction IH as [|it items Hit _ IHl]; intros files; simpl; [done|].
    rewrite fold_left_app, Hit. apply IHl.
  - done.
Qed.

Lemma load_fold basePath rel items files :
  loadAllFiles basePath rel items files =
    fold_left (insert_file basePath) (files_of rel items) files.
Proof.
  unfold loadAllFiles, files_of. revert files.
  induction items as [|it items IH]; intros files; simpl; [done|].
  rewrite fold_left_app, load_entry_fold. apply IH.
Qed.

Lemma fold_insert_notin basePath l files k :
  k ∉ map (fun f => file_key basePath f.1) l ->
  fold_left (insert_file basePath) l files !! k = files !! k.
Proof.
  revert files. induction l as [|f l IH]; intros files Hk; simpl; [done|].
  rewrite IH by set_solver. unfold insert_file.
  rewrite lookup_insert_ne by set_solver. done.
Qed.

Lemma fold_insert_in basePath l files rel data :
  NoDup (map (fun f => file_key basePath f.1) l) ->
  (rel, data) ∈ l ->
  fold_left (insert_file basePath) l files !! file_key basePath rel = Some data.
Proof.
  revert files. induction l as [|f l IH]; intros files Hnd Hin; [set_solver|].
  simpl in *. apply NoDup_cons in Hnd as [Hf Hnd].
  apply elem_of_cons in Hin as [<-|Hin].
  - rewrite fold_insert_notin by done. unfold insert_file. by rewrite lookup_insert_eq.
  - by apply IH.
Qed.

Lemma fold_insert_lookup basePath l k data :
  fold_left (insert_file basePath) l ∅ !! k = Some data ->
  exists rel, (rel, data) ∈ l /\ k = file_key basePath rel.
Proof.
  assert (forall files, fold_left (insert_file basePath) l files !! k = Some data ->
            files !! k = Some data \/ exists rel, (rel, data) ∈ l /\ k = file_key basePath rel)
    as H.
  { induction l as [|f l IH]; intros files Hk; simpl in *; [by left|].
    destruct (IH _ Hk) as [Hf|[rel [Hin ->]]].
    - unfold insert_file in Hf. destruct (decide (file_key basePath f.1 = k)) as [<-|Hne].
      + rewrite lookup_insert_eq in Hf. injection Hf as <-. right.
        exists f.1. split; [destruct f; simpl; left|done].
      + rewrite lookup_insert_ne in Hf by done. by left.
    - right. exists rel. split; [by right|done]. }
  intros Hk. destruct (H ∅ Hk) as [Hf|?]; [by rewrite lookup_empty in Hf|done].
Qed.

(** Keys are injective on slash-free relative paths. *)

Lemma str_app_cons c a x : (String c a +:+ x)%string = String c (a +:+ x)%string.
Proof. reflexivity. Qed.

Lemma str_app_nil_r a : (a +:+ "")%string = a.
Proof. induction a as [|c a IH]; [done|]. rewrite str_app_cons. by rewrite IH. Qed.

Lemma has_slash_cons c a :
  has_slash (String c a) = false -> c <> Ascii.ascii_of_nat 47 /\ has_slash a = false.
Proof.
  simpl. intros H. apply orb_false_iff in H as [H1 H2].
  split; [|done]. intros ->. by rewrite bool_decide_eq_true_2 in H1.
Qed.

Lemma app_no_slash_inj a1 a2 x1 x2 :
  no_slash a1 -> no_slash a2 -> slash_or_empty x1 -> slash_or_empty x2 ->
  (a1 +:+ x1)%string = (a2 +:+ x2)%string -> a1 = a2 /\ x1 = x2.
Proof.
  revert a2. induction a1 as [|c1 a1 IH]; intros [|c2 a2] H1 H2 Hx1 Hx2 H.
  - done.
  - apply has_slash_cons in H2 as [Hc _]. change (x1 = String c2 (a2 +:+ x2)%string) in H.
    destruct Hx1 as [->|[y ->]]; [discriminate|]. injection H as <- _. done.
  - apply has_slash_cons in H1 as [Hc _]. change (String c1 (a1 +:+ x1)%string = x2) in H.
    destruct Hx2 as [->|[y ->]]; [discriminate|]. injection H as -> _. done.
  - apply has_slash_cons in H1 as [_ H1]. apply has_slash_cons in H2 as [_ H2].
    rewrite !str_app_cons in H. injection H as <- H.
    destruct (IH a2 H1 H2 Hx1 Hx2 H) as [-> ->]. done.
Qed.

Lemma concat_cons a rest : String.concat "/" (a :: rest) = (a +:+ concat_tail rest)%string.
Proof. destruct rest; simpl; [by rewrite str_app_nil_r|done]. Qed.

Lemma concat_slash_inj (r1 r2 : list string) :
  Forall (fun x => no_slash x) r1 -> Forall (fun x => no_slash x) r2 ->
  r1 <> [] -> r2 <> [] ->
  String.concat "/" r1 = String.concat "/" r2 -> r1 = r2.
Proof.
  revert r2. induction r1 as [|a1 t1 IH]; intros [|a2 t2] H1 H2 Hn1 Hn2 H; try done.
  apply Forall_cons in H1 as [Ha1 Ht1]. apply Forall_cons in H2 as [Ha2 Ht2].
  rewrite !concat_cons in H.
  assert (Hs : forall t, slash_or_empty (concat_tail t))
    by (intros [|??]; [by left|right; eexists; reflexivity]).
  destruct (app_no_slash_inj _ _ _ _ Ha1 Ha2 (Hs t1) (Hs t2) H) as [-> Ht].
  destruct t1 as [|b1 t1], t2 as [|b2 t2]; try done.
  injection Ht as Ht. f_equal. apply IH; done.
Qed.

Lemma file_key_inj basePath r1 r2 :
  Forall (fun x => no_slash x) r1 -> Forall (fun x => no_slash x) r2 ->
  r1 <> [] -> r2 <> [] ->
  file_key basePath r1 = file_key basePath r2 -> r1 = r2.
Proof.
  unfold file_key. intros H1 H2 Hn1 Hn2 H.
  apply (inj (String.append basePath)) in H. apply (inj (String.append _)) in H.
  by apply concat_slash_inj.
Qed.

(** Relative paths of the files of a tree. *)

Lemma files_of_entry_prefix e : forall rel p d,
  In (p, d) (files_of_entry rel e) -> exists t, p = rel ++ entry_name e :: t.
Proof.
  induction e as [n data|n items IH|n] using fs_entry_rect_all; intros rel p d Hin; simpl in *.
  - destruct Hin as [H|[]]. injection H as <- _. by exists [].
  - apply in_concat in Hin as (l & Hl & Hin). apply in_map_iff in Hl as (it & <- & Hit).
    rewrite List.Forall_forall in IH. destruct (IH it Hit _ _ _ Hin) as [t ->].
    exists (entry_name it :: t). by rewrite <- app_assoc.
  - done.
Qed.

Lemma files_of_entry_segments e : forall rel p d,
  wf_entry e = true -> no_slash (entry_name e) -> Forall (fun x => no_slash x) rel ->
  In (p, d) (files_of_entry rel e) -> Forall (fun x => no_slash x) p.
Proof.
  induction e as [n data|n items IH|n] using fs_entry_rect_all;
    intros rel p d Hwf Hn Hrel Hin; simpl in *.
  - destruct Hin as [H|[]]. injection H as <- _. apply Forall_app. split; [done|]. by constructor.
  - apply andb_true_iff in Hwf as [[_ Hs]%andb_true_iff Hw].
    apply in_concat in Hin as (l & Hl & Hin). apply in_map_iff in Hl as (it & <- & Hit).
    rewrite List.Forall_forall in IH. apply (IH it Hit (rel ++ [n]) p d); [| |..|done].
    + by apply (proj1 (forallb_forall _ _) Hw).
    + apply negb_true_iff. by apply (proj1 (forallb_forall _ _) Hs).
    + apply Forall_app. split; [done|]. by constructor.
  - done.
Qed.

Lemma nodup_items rel items :
  NoDup (map entry_name items) ->
  Forall (fun it => NoDup (map fst (files_of_entry rel it))) items ->
  NoDup (map fst (concat (map (files_of_entry rel) items))).
Proof.
  induction items as [|it items IH]; intros Hnames Hall; simpl; [constructor|].
  apply NoDup_cons in Hnames as [Hit Hnames]. apply Forall_cons in Hall as [Hd Hall].
  rewrite map_app. apply NoDup_app. split; [done|]. split; [|by apply IH].
  intros x Hx Hx'.
  apply list_elem_of_In, in_map_iff in Hx as ([p d] & <- & Hx).
  apply list_elem_of_In, in_map_iff in Hx' as ([p' d'] & Heq & Hx'). simpl in Heq. subst p'.
  apply in_concat in Hx' as (l & Hl & Hx'). apply in_map_iff in Hl as (it' & <- & Hit').
  destruct (files_of_entry_prefix it rel p d Hx) as [t ->].
  destruct (files_of_entry_prefix it' rel _ d' Hx') as [t' Heq].
  apply app_inv_head in Heq. injection Heq as Heq _.
  apply Hit. rewrite Heq. apply list_elem_of_In, in_map. done.
Qed.

Lemma files_of_entry_nodup e : forall rel,
  wf_entry e = true -> NoDup (map fst (files_of_entry rel e)).
Proof.
  induction e as [n data|n items IH|n] using fs_entry_rect_all; intros rel Hwf; simpl in *.
  - repeat constructor. set_solver.
  - apply andb_true_iff in Hwf as [[Hnd _]%andb_true_iff Hw].
    apply nodup_items; [by apply bool_decide_eq_true in Hnd|].
    rewrite List.Forall_forall in IH |- *. intros it Hit.
    apply IH; [done|]. by apply (proj1 (forallb_forall _ _) Hw).
  - constructor.
Qed.

Lemma NoDup_map_on {A B} (f : A -> B) (l : list A) :
  (forall x y, In x l -> In y l -> f x = f y -> x = y) -> NoDup l -> NoDup (map f l).
Proof.
  induction l as [|x l IH]; intros Hinj Hnd; simpl; [constructor|].
  apply NoDup_cons in Hnd as [Hx Hnd]. apply NoDup_cons. split.
  - intros Hfx. apply list_elem_of_In, in_map_iff in Hfx as (y & Hy & Hin).
    apply Hx. rewrite (Hinj x y); [by apply list_elem_of_In|left|right|]; done.
  - apply IH; [|done]. intros a b Ha Hb. apply Hinj; by right.
Qed.

Lemma files_of_root_path root p d :
  wf_root root = true -> In (p, d) (files_of [] root) ->
  Forall (fun x => no_slash x) p /\ p <> [].
Proof.
  unfold wf_root, files_of. intros Hwf Hin.
  apply andb_true_iff in Hwf as [[_ Hs]%andb_true_iff Hw].
  apply in_concat in Hin as (l & Hl & Hin). apply in_map_iff in Hl as (it & <- & Hit).
  split.
  - apply (files_of_entry_segments it [] p d); [| |constructor|done].
    + by apply (proj1 (forallb_forall _ _) Hw).
    + apply negb_true_iff. by apply (proj1 (forallb_forall _ _) Hs).
  - destruct (files_of_entry_prefix it [] p d Hin) as [t ->]. done.
Qed.

Lemma files_of_root_nodup root :
  wf_root root = true -> NoDup (map fst (files_of [] root)).
Proof.
  unfold wf_root, files_of. intros Hwf.
  apply andb_true_iff in Hwf as [[Hnd _]%andb_true_iff Hw].
  apply nodup_items; [by apply bool_decide_eq_true in Hnd|].
  apply List.Forall_forall. intros it Hit.
  apply files_of_entry_nodup. by apply (proj1 (forallb_forall _ _) Hw).
Qed.

Lemma prefix_app a b : String.prefix a (a +:+ b)%string = true.
Proof.
  induction a as [|c a IH]; [by destruct b|]. rewrite str_app_cons. simpl.
  destruct (Ascii.ascii_dec c c); done.
Qed.

(** C8: in cache mode the map built at registration has exactly one key per
    regular file of the tree, [basePath] + ("/" unless [basePath] ends in
    "/") + its relative path joined by "/", bound to the file's bytes.  The
    static route's path validator accepts every key; a request for a key is
    answered 200 with those bytes, and a request for any url that is not a
    key is answered 404 by the static handler itself. *)
Theorem static_cache_serves (root : list fs_entry) (basePath : string) :
  wf_root root = true ->
  NoDup (map (fun f => file_key basePath f.1) (files_of [] root)) /\
  (forall rel data, In (rel, data) (files_of [] root) ->
     loadAllFiles basePath [] root ∅ !! file_key basePath rel = Some data /\
     forall req, url req = file_key basePath rel ->
       createStaticPathValidator basePath req = MatchOk true /\
       createStaticHandlerCached root basePath req = {| status := 200; body := [data] |}) /\
  (forall k data, loadAllFiles basePath [] root ∅ !! k = Some data ->
     exists rel, In (rel, data) (files_of [] root) /\ k = file_key basePath rel) /\
  (forall req,
     (forall rel data, In (rel, data) (files_of [] root) -> url req <> file_key basePath rel) ->
     createStaticHandlerCached root basePath req = {| status := 404; body := [] |}).
Proof.
  intros Hwf.
  assert (Hkeys : NoDup (map (fun f => file_key basePath f.1) (files_of [] root))).
  { rewrite <- (map_map fst (file_key basePath)). apply NoDup_map_on.
    - intros x y Hx Hy Heq.
      apply in_map_iff in Hx as ([px dx] & <- & Hx).
      apply in_map_iff in Hy as ([py dy] & <- & Hy).
      destruct (files_of_root_path root px dx Hwf Hx) as [Hsx Hnx].
      destruct (files_of_root_path root py dy Hwf Hy) as [Hsy Hny].
      by apply (file_key_inj basePath).
    - by apply files_of_root_nodup. }
  assert (Hload : forall rel data, In (rel, data) (files_of [] root) ->
            loadAllFiles basePath [] root ∅ !! file_key basePath rel = Some data).
  { intros rel data Hin. rewrite load_fold. apply fold_insert_in; [done|].
    by apply list_elem_of_In. }
  split; [done|]. split; [|split].
  - intros rel data Hin. split; [by apply Hload|].
    intros req Hurl. split.
    + unfold createStaticPathValidator. rewrite Hurl. unfold file_key. cbv zeta.
      by rewrite prefix_app.
    + unfold createStaticHandlerCached. rewrite Hurl, (Hload rel data Hin). done.
  - intros k data Hk. rewrite load_fold in Hk.
    destruct (fold_insert_lookup _ _ _ _ Hk) as (rel & Hin & ->).
    exists rel. split; [by apply list_elem_of_In|done].
  - intros req Hnot. unfold createStaticHandlerCached.
    destruct (loadAllFiles basePath [] root ∅ !! url req) as [data|] eqn:Hk; [|done].
    rewrite load_fold in Hk.
    destruct (fold_insert_lookup _ _ _ _ Hk) as (rel & Hin & Heq).
    exfalso. apply (Hnot rel data); [by apply list_elem_of_In|done].
Qed.

Lemma static_cache_serves_witness :
  createStaticHandlerCached static_root "/static" (get_req "/static/sub/b.txt") =
    {| status := 200; body := [[Byte.x62; Byte.x63]] |}.
Proof.
  destruct (static_cache_serves static_root "/static") as (_ & Hfiles & _).
  - vm_compute. reflexivity.
  - apply (Hfiles ["sub"; "b.txt"] [Byte.x62; Byte.x63]).
    + simpl. tauto.
    + reflexivity.
Defined.

(** C1: the listener looks up the compiled bucket of the request's method and
    selects the first route, in registration order, whose path validator
    returns true: only that route's handler runs and no later validator is
    evaluated.  With no bucket, or when no validator returns true, the
    current not-found handler runs instead. *)
Theorem flitz_first_match (s : server) (req : IncomingMessage) :
  (forall pre ctx post,
     compiledHandlers s !! method req = Some (pre ++ ctx :: post) ->
     rejects_none req pre ->
     isPathValid ctx req = MatchOk true ->
     flitz s req =
       (S (length pre),
        (run_handler (errorHandler s) (handler ctx)).1 ++
        handleError (errorHandler s) (run_handler (errorHandler s) (handler ctx)).2)) /\
  ((compiledHandlers s !! method req = None \/
    exists ctxs, compiledHandlers s !! method req = Some ctxs /\ rejects_none req ctxs) ->
   (flitz s req).2 =
     ENotFound (notFoundHandler s).1 :: handleError (errorHandler s) (notFoundHandler s).2).
Proof.
  split.
  - intros pre ctx post Hb Hpre Hctx. unfold flitz. rewrite Hb.
    rewrite (find_ctx_skip req pre (ctx :: post) Hpre). simpl. rewrite Hctx.
    rewrite Nat.add_1_r. by destruct (run_handler _ _).
  - intros [Hb|[ctxs [Hb Hall]]]; unfold flitz; rewrite Hb; [done|].
    by rewrite (find_ctx_none req ctxs Hall).
Qed.

(** C10: when the path validator of a route throws while the listener scans
    the bucket (all earlier validators having returned false), the listener
    catches the failure and invokes the configured error handler with it;
    no later validator is evaluated and no route handler runs. *)
Theorem flitz_validator_throws (s : server) (req : IncomingMessage)
    (pre : list RequestHandlerContext) (ctx : RequestHandlerContext)
    (post : list RequestHandlerContext) (e : js_error) :
  compiledHandlers s !! method req = Some (pre ++ ctx :: post) ->
  rejects_none req pre ->
  isPathValid ctx req = MatchThrow e ->
  flitz s req = (S (length pre), [EErrorHandler (errorHandler s) e]).
Proof.
  intros Hb Hpre Hctx. unfold flitz. rewrite Hb.
  rewrite (find_ctx_skip req pre (ctx :: post) Hpre). simpl. rewrite Hctx.
  by rewrite Nat.add_1_r.
Qed.

(** C9: with no global middleware, compiling returns the raw table itself,
    and in every state a program reaches with an empty global middleware
    list the compiled table the listener reads is the raw table. *)
Theorem compile_without_globals (eh : nat) (nf : nat * outcome) :
  (forall g : RequestHandlersGrouped, compileAllWithMiddlewares g [] = g) /\
  (forall cs : list api_call,
     globalMiddleWares (run_calls cs (createServer eh nf)) = [] ->
     compiledHandlers (run_calls cs (createServer eh nf)) =
       groupedHandlers (run_calls cs (createServer eh nf))).
Proof.
  split; [done|].
  intros cs Hg. pose proof (run_calls_inv cs _ (createServer_inv eh nf)) as H.
  unfold compiled_inv in H. by rewrite H, Hg.
Qed.

Lemma flitz_first_match_witness :
  flitz two_routes (get_req "/a") = (1, [EHandler 1] ++ []) /\
  (flitz two_routes (get_req "/z")).2 = [ENotFound 101].
Proof.
  split.
  - apply (proj1 (flitz_first_match two_routes (get_req "/a"))
             [] (route_ctx 1 "/a") [route_ctx 2 "/a"]).
    + vm_compute. reflexivity.
    + constructor.
    + vm_compute. reflexivity.
  - apply (proj2 (flitz_first_match two_routes (get_req "/z"))).
    right. exists [route_ctx 1 "/a"; route_ctx 2 "/a"]. split.
    + vm_compute. reflexivity.
    + constructor; [vm_compute; reflexivity|].
      constructor; [vm_compute; reflexivity|]. constructor.
Defined.

Lemma flitz_validator_throws_witness :
  flitz throwing_routes (get_req "/b") = (2, [EErrorHandler 100 "boom"]).
Proof.
  apply (flitz_validator_throws throwing_routes (get_req "/b")
           [route_ctx 1 "/a"]
           {| handler := HUser 2 Resolved; isPathValid := fun _ => MatchThrow "boom" |}
           [] "boom").
  - vm_compute. reflexivity.
  - constructor; [vm_compute; reflexivity|]. constructor.
  - reflexivity.
Defined.

Lemma compile_without_globals_witness :
  compiledHandlers two_routes = groupedHandlers two_routes.
Proof.
  apply (proj2 (compile_without_globals 100 (101, Resolved))).
  vm_compute. reflexivity.
Defined.

(** ** Further properties of the router *)


Lemma handleError_retarget eh eh0 o :
  handleError eh o = map (retarget eh) (handleError eh0 o).
Proof. by destruct o. Qed.

Lemma run_next_retarget fuel eh eh0 mws t o : forall i,
  run_next fuel eh mws (map (retarget eh) t, o) i =
    (map (retarget eh) (run_next fuel eh0 mws (t, o) i).1, (run_next fuel eh0 mws (t, o) i).2).
Proof.
  induction fuel as [|fuel IH]; intros i; [done|].
  simpl. destruct (mws !! i) as [mw|]; simpl.
  - assert (Hc : forall n j,
      (fix calls (n j : nat) : list event * nat :=
         match n with
         | O => ([], j)
         | S n' =>
           let '(t1, j1) := run_next fuel eh mws (map (retarget eh) t, o) j in
           let '(t2, j2) := calls n' j1 in (t1 ++ t2, j2)
         end) n j =
      (map (retarget eh)
         ((fix calls (n j : nat) : list event * nat :=
            match n with
            | O => ([], j)
            | S n' =>
              let '(t1, j1) := run_next fuel eh0 mws (t, o) j in
              let '(t2, j2) := calls n' j1 in (t1 ++ t2, j2)
            end) n j).1,
       ((fix calls (n j : nat) : list event * nat :=
            match n with
            | O => ([], j)
            | S n' =>
              let '(t1, j1) := run_next fuel eh0 mws (t, o) j in
              let '(t2, j2) := calls n' j1 in (t1 ++ t2, j2)
            end) n j).2)).
    { induction n as [|n IHn]; intros j; [done|].
      rewrite IH. destruct (run_next fuel eh0 mws (t, o) j) as [t1 j1]. simpl.
      rewrite IHn. destruct (_ n j1) as [t2 j2]. simpl. by rewrite map_app. }
    rewrite Hc. destruct (_ (mw_nexts mw) (S i)) as [t' j]. simpl.
    by rewrite map_app, (handleError_retarget eh eh0).
  - by rewrite map_app, (handleError_retarget eh eh0).
Qed.

Lemma run_handler_retarget eh eh0 h :
  run_handler eh h = (map (retarget eh) (run_handler eh0 h).1, (run_handler eh0 h).2).
Proof.
  induction h as [name result|h IH mws]; [done|].
  change (run_handler eh (HMerged h mws))
    with ((run_next (S (length mws)) eh mws (run_handler eh h) 0).1, Resolved).
  change (run_handler eh0 (HMerged h mws))
    with ((run_next (S (length mws)) eh0 mws (run_handler eh0 h) 0).1, Resolved).
  rewrite IH. destruct (run_handler eh0 h) as [t o]. cbn [fst snd].
  by rewrite run_next_retarget with (eh0 := eh0).
Qed.



Lemma run_next_stop fuel eh (pre : list Middleware) m post inner i :
  Forall passes pre -> mw_nexts m = 0 ->
  i <= length pre -> length pre - i < fuel ->
  run_next fuel eh (pre ++ m :: post) inner i =
    (mw_events (drop i pre) ++ EMiddleware (mw_name m) :: handleError eh (mw_result m),
     S (length pre)).
Proof.
  intros Hall Hn. revert i. induction fuel as [|fuel IH]; intros i Hi Hf; [lia|].
  simpl. destruct (decide (i < length pre)) as [Hlt|Hge].
  - destruct (lookup_lt_is_Some_2 pre i Hlt) as [mw E].
    rewrite (lookup_app_l_Some _ _ _ _ E).
    destruct (proj1 (Forall_lookup _ _) Hall i mw E) as [Hn' Hr'].
    rewrite Hn', Hr'. simpl. rewrite (IH (S i)) by lia. simpl.
    rewrite (drop_S _ _ _ E). simpl. by rewrite !app_nil_r.
  - assert (i = length pre) as -> by lia.
    rewrite list_lookup_middle by done. rewrite Hn. simpl.
    by rewrite drop_all.
Qed.


Lemma withMethod_extends m args s m' :
  exists suf, default [] (groupedHandlers (withMethod m args s).2 !! m') =
              default [] (groupedHandlers s !! m') ++ suf.
Proof.
  destruct (withMethod m args s) as [r s'] eqn:Hw. destruct r as [ex|[]].
  - destruct (withMethod_cases m args s) as [H|[H _]]; rewrite Hw in H; simpl in H.
    + subst s'. exists []. by rewrite app_nil_r.
    + discriminate.
  - destruct (withMethod_ok m args s s' Hw) as [h ->]. simpl. unfold appended_table.
    destruct (decide (m = m')) as [<-|Hne].
    + rewrite lookup_insert_eq. simpl. eexists. reflexivity.
    + rewrite lookup_insert_ne by done. exists []. by rewrite app_nil_r.
Qed.

Lemma run_calls_extends cs s m :
  exists suf, default [] (groupedHandlers (run_calls cs s) !! m) =
              default [] (groupedHandlers s !! m) ++ suf.
Proof.
  revert s. induction cs as [|c cs IH]; intros s; simpl.
  - exists []. by rewrite app_nil_r.
  - assert (Hs : exists suf, default [] (groupedHandlers (step c s).2 !! m) =
                             default [] (groupedHandlers s !! m) ++ suf).
    { destruct c as [m' args|mws|h|h]; simpl.
      - apply withMethod_extends.
      - exists []. rewrite app_nil_r. unfold use. by case_match.
      - exists []. rewrite app_nil_r. unfold setErrorHandler. by destruct h.
      - exists []. rewrite app_nil_r. unfold setNotFoundHandler. by destruct h. }
    destruct Hs as [suf1 Hs]. destruct (IH (step c s).2) as [suf2 H2].
    exists (suf1 ++ suf2). by rewrite H2, Hs, app_assoc.
Qed.

Lemma compile_ctx_valid gs ctx : isPathValid (compile_ctx gs ctx) = isPathValid ctx.
Proof. by destruct gs. Qed.






(** X3: middlewares added by [use] also wrap routes registered before the
    call: a request selected for such a route runs the old global
    middlewares, then the new ones, then the route's own handler chain
    (every middleware calling [next()] once and resolving). *)
Theorem use_applies_to_existing_routes (s : server) (fs : list js_function)
    (req : IncomingMessage) (pre : list RequestHandlerContext)
    (ctx : RequestHandlerContext) (post : list RequestHandlerContext) :
  groupedHandlers s !! method req = Some (pre ++ ctx :: post) ->
  rejects_none req pre ->
  isPathValid ctx req = MatchOk true ->
  Forall passes (globalMiddleWares s) ->
  Forall (fun f => fn_nexts f = 1 /\ fn_result f = Resolved) fs ->
  flitz (use (map JFunction fs) s).2 req =
    (S (length pre),
     mw_events (globalMiddleWares s) ++ map (fun f => EMiddleware (fn_id f)) fs ++
     full_trace (errorHandler s) (handler ctx)).
Proof.
  intros Hb Hpre Hctx Hgs Hfs. unfold use. rewrite functions_of_map.
  unfold flitz. cbn [snd compiledHandlers recompileHandlers set_globals groupedHandlers
                     globalMiddleWares errorHandler].
  rewrite compile_lookup, Hb. simpl. rewrite map_app.
  rewrite (find_ctx_skip req _ _ (rejects_none_compile req _ _ Hpre)). simpl.
  rewrite compile_ctx_valid, Hctx. simpl. rewrite length_map, Nat.add_1_r.
  assert (Hall : Forall passes (globalMiddleWares s ++ map as_middleware fs)).
  { apply Forall_app. split; [done|]. apply Forall_fmap.
    eapply Forall_impl; [exact Hfs|]. intros f [H1 H2]. by split. }
  pose proof (run_compile_ctx (errorHandler s) _ ctx Hall) as Hr.
  revert Hr.
  destruct (run_handler (errorHandler s)
              (handler (compile_ctx (globalMiddleWares s ++ map as_middleware fs) ctx))) as [t o].
  intros ->. unfold full_trace. rewrite map_app, map_map. by rewrite <- app_assoc.
Qed.

Lemma use_applies_to_existing_routes_witness :
  flitz (use (map JFunction [fn 3 1 Resolved]) route_a).2 (get_req "/a") =
    (S (length (@nil RequestHandlerContext)),
     mw_events (globalMiddleWares route_a) ++ [EMiddleware 3] ++
     full_trace (errorHandler route_a) (HUser 1 Resolved)).
Proof.
  apply (use_applies_to_existing_routes route_a [fn 3 1 Resolved] (get_req "/a")
           [] (route_ctx 1 "/a") []).
  - vm_compute. reflexivity.
  - constructor.
  - reflexivity.
  - vm_compute. constructor.
  - constructor; [split; reflexivity|constructor].
Defined.

(** X4: [use()] with no argument returns normally and, in every state whose
    compiled table is up to date, leaves the server unchanged. *)
Theorem use_no_arguments (s : server) :
  compiled_inv s -> use [] s = (inr tt, s).
Proof.
  intros H. unfold use. simpl. f_equal. destruct s as [eh nf gs g c].
  unfold compiled_inv in H. simpl in H. subst c.
  unfold recompileHandlers, set_globals. simpl. by rewrite app_nil_r.
Qed.

Lemma use_no_arguments_witness : use [] with_globals = (inr tt, with_globals).
Proof. apply use_no_arguments. reflexivity. Defined.



(** X6: after [setErrorHandler(f)] every request is handled exactly as
    before, by the same routes and middlewares, including chains compiled
    before the call, except that each error-handler call goes to [f]. *)
Theorem setErrorHandler_retargets (f : js_function) (s : server) (req : IncomingMessage) :
  flitz (setErrorHandler (JFunction f) s).2 req =
    ((flitz s req).1, map (retarget (fn_id f)) (flitz s req).2).
Proof.
  unfold flitz. cbn [setErrorHandler snd errorHandler notFoundHandler compiledHandlers].
  assert (Hnf : ENotFound (notFoundHandler s).1 :: handleError (fn_id f) (notFoundHandler s).2 =
                map (retarget (fn_id f))
                  (ENotFound (notFoundHandler s).1 :: handleError (errorHandler s) (notFoundHandler s).2)).
  { simpl. by rewrite (handleError_retarget _ (errorHandler s)). }
  destruct (compiledHandlers s !! method req) as [ctxs|]; [|by rewrite Hnf].
  destruct (find_ctx req ctxs) as [n [e|[ctx|]]]; [done| |by rewrite Hnf].
  rewrite (run_handler_retarget (fn_id f) (errorHandler s)).
  destruct (run_handler (errorHandler s) (handler ctx)) as [t o]. simpl.
  by rewrite map_app, (handleError_retarget _ (errorHandler s)).
Qed.

(** X7: [setNotFoundHandler(f)] only changes requests that reached the
    not-found handler: those now invoke [f] (its rejection going to the error
    handler); every other request is handled as before. *)
Theorem setNotFoundHandler_only_not_found (f : js_function) (s : server)
    (req : IncomingMessage) :
  flitz (setNotFoundHandler (JFunction f) s).2 req = flitz s req \/
  ((flitz s req).2 =
     ENotFound (notFoundHandler s).1 :: handleError (errorHandler s) (notFoundHandler s).2 /\
   flitz (setNotFoundHandler (JFunction f) s).2 req =
     ((flitz s req).1, ENotFound (fn_id f) :: handleError (errorHandler s) (fn_result f))).
Proof.
  unfold flitz. simpl.
  destruct (compiledHandlers s !! method req) as [ctxs|]; [|by right].
  destruct (find_ctx req ctxs) as [n [e|[ctx|]]]; [by left|by left|by right].
Qed.

(** X8: passing a single middleware function as the options argument
    registers exactly what passing the one-element array does. *)
Theorem withMethod_single_middleware (m : string) (p : js_value) (f : js_function)
    (h : js_value) (s : server) :
  withMethod m [p; JFunction f; h] s = withMethod m [p; JArray [JFunction f]; h] s.
Proof. destruct p; try reflexivity; destruct h; reflexivity. Qed.

(** X9: an options object whose [use] property is an array registers
    exactly what passing that array directly does. *)
Theorem withMethod_use_object (m : string) (p : js_value)
    (props : list (string * js_value)) (xs : list js_value) (h : js_value) (s : server) :
  prop props "use" = JArray xs ->
  withMethod m [p; JObject props; h] s = withMethod m [p; JArray xs; h] s.
Proof.
  intros Hu. destruct p; try reflexivity; destruct h; try reflexivity;
    unfold withMethod; simpl; by rewrite Hu.
Qed.

Lemma withMethod_use_object_witness :
  withMethod "GET" [JString "/b"; JObject [("use", JArray [JFunction (fn 5 1 Resolved)])];
                    JFunction (fn 2 0 Resolved)] with_globals =
  withMethod "GET" [JString "/b"; JArray [JFunction (fn 5 1 Resolved)];
                    JFunction (fn 2 0 Resolved)] with_globals.
Proof. apply withMethod_use_object. reflexivity. Defined.

(** X10: an options argument that carries no middleware (a falsy value, an
    empty array, or an object whose [use] has no length) registers exactly
    what the two-argument form does: the handler is not wrapped. *)
Theorem withMethod_no_middlewares (m : string) (p o h : js_value) (s : server) :
  truthy o = false \/ o = JArray [] \/
  (exists props, o = JObject props /\ length_truthy (prop props "use") = false) ->
  withMethod m [p; o; h] s = withMethod m [p; h] s.
Proof.
  intros Ho. unfold withMethod.
  rewrite (bool_decide_eq_false_2 (length [p; o; h] < 3)) by (simpl; lia).
  rewrite (bool_decide_eq_true_2 (length [p; h] < 3)) by (simpl; lia).
  destruct p; try reflexivity; destruct h; try reflexivity; cbn -[truthy].
  all: destruct Ho as [Ho|[->|(props & -> & Hu)]]; [rewrite Ho; reflexivity|reflexivity|].
  all: simpl; rewrite Hu; reflexivity.
Qed.

Lemma withMethod_no_middlewares_witness :
  withMethod "GET" [JString "/b"; JNull; JFunction (fn 2 0 Resolved)] with_globals =
  withMethod "GET" [JString "/b"; JFunction (fn 2 0 Resolved)] with_globals.
Proof. apply withMethod_no_middlewares. left. reflexivity. Defined.





(** X13: a registration that returns normally appends exactly one route at
    the end of its method's bucket (creating the bucket if needed), leaves
    every other method's bucket, both handler slots and the global
    middlewares unchanged, and leaves the compiled table up to date. *)
Theorem withMethod_appends (m : string) (args : list js_value) (s s' : server) :
  withMethod m args s = (inr tt, s') ->
  (exists ctx, groupedHandlers s' !! m = Some (default [] (groupedHandlers s !! m) ++ [ctx])) /\
  (forall m', m' <> m -> groupedHandlers s' !! m' = groupedHandlers s !! m') /\
  errorHandler s' = errorHandler s /\ notFoundHandler s' = notFoundHandler s /\
  globalMiddleWares s' = globalMiddleWares s /\ compiled_inv s'.
Proof.
  intros Hw. destruct (withMethod_ok m args s s' Hw) as [h ->].
  simpl. unfold appended_table. split; [|split].
  - eexists. by rewrite lookup_insert_eq.
  - intros m' Hne. by rewrite lookup_insert_ne by done.
  - done.
Qed.

Lemma withMethod_appends_witness :
  (exists ctx, groupedHandlers with_route !! "GET" =
                 Some (default [] (groupedHandlers with_globals !! "GET") ++ [ctx])) /\
  (forall m', m' <> "GET" -> groupedHandlers with_route !! m' = groupedHandlers with_globals !! m') /\
  errorHandler with_route = errorHandler with_globals /\
  notFoundHandler with_route = notFoundHandler with_globals /\
  globalMiddleWares with_route = globalMiddleWares with_globals /\ compiled_inv with_route.
Proof. apply (withMethod_appends "GET" route_args). vm_compute. reflexivity. Defined.

(** X14: registering a route on method [m] does not change how any request
    of another method is handled. *)
Theorem withMethod_other_methods (m : string) (args : list js_value) (s : server)
    (req : IncomingMessage) :
  compiled_inv s -> method req <> m -> flitz (withMethod m args s).2 req = flitz s req.
Proof.
  intros Hinv Hm. destruct (withMethod m args s) as [r s'] eqn:Hw. simpl.
  destruct r as [ex|[]].
  - destruct (withMethod_cases m args s) as [H|[H _]]; rewrite Hw in H; simpl in H;
      [by subst s'|discriminate].
  - destruct (withMethod_ok m args s s' Hw) as [h ->]. unfold flitz. simpl.
    rewrite compile_lookup. unfold appended_table. rewrite lookup_insert_ne by done.
    rewrite Hinv, compile_lookup. done.
Qed.

Lemma withMethod_other_methods_witness :
  flitz (withMethod "GET" route_args with_globals).2
        {| method := "POST"; url := "/b"; headers := [] |} =
  flitz with_globals {| method := "POST"; url := "/b"; headers := [] |}.
Proof. apply withMethod_other_methods; [reflexivity|discriminate]. Defined.

(** X15: routes are never removed or reordered: after any sequence of
    configuration calls, each method's bucket starts with the bucket it had
    before. *)
Theorem buckets_append_only (cs : list api_call) (s : server) (m : string) :
  exists suf, default [] (groupedHandlers (run_calls cs s) !! m) =
              default [] (groupedHandlers s !! m) ++ suf.
Proof. apply run_calls_extends. Qed.

(** X16: global middlewares never change route selection: in the compiled
    bucket the listener selects the compiled form of the same route, after
    evaluating the same number of path validators, or fails with the same
    validator error, as in the raw bucket. *)
Theorem compile_same_selection (g : RequestHandlersGrouped) (gs : list Middleware)
    (m : string) (req : IncomingMessage) :
  find_ctx req <$> (compileAllWithMiddlewares g gs !! m) =
    (fun ctxs => let '(n, r) := find_ctx req ctxs in
                 (n, match r with
                     | inl e => inl e
                     | inr o => inr (compile_ctx gs <$> o)
                     end)) <$> (g !! m).
Proof.
  rewrite compile_lookup. destruct (g !! m) as [ctxs|]; [|done]. simpl. f_equal.
  induction ctxs as [|c ctxs IH]; [done|]. simpl.
  rewrite compile_ctx_valid. destruct (isPathValid c req) as [[]|e]; [done| |done].
  rewrite IH. by destruct (find_ctx req ctxs) as [n [e|[]]].
Qed.

(** X17: in a chain built by [mergeHandler], a middleware that does not call
    [next()] ends the chain: neither a later middleware nor the handler runs,
    and only a rejection of that middleware reaches the error handler. *)
Theorem chain_stops_without_next (eh : nat) (h : RequestHandler) (pre : list Middleware)
    (mw : Middleware) (post : list Middleware) :
  Forall passes pre -> mw_nexts mw = 0 ->
  run_handler eh (HMerged h (pre ++ mw :: post)) =
    (mw_events pre ++ EMiddleware (mw_name mw) :: handleError eh (mw_result mw), Resolved).
Proof.
  intros Hpre Hn.
  change (run_handler eh (HMerged h (pre ++ mw :: post)))
    with ((run_next (S (length (pre ++ mw :: post))) eh (pre ++ mw :: post)
             (run_handler eh h) 0).1, Resolved).
  rewrite (run_next_stop _ eh pre mw post _ 0 Hpre Hn) by (rewrite ?length_app; simpl; lia).
  done.
Qed.

Lemma chain_stops_without_next_witness :
  run_handler 100 (HMerged (HUser 9 Resolved)
                     ([as_middleware (fn 1 1 Resolved)] ++
                      {| mw_name := 2; mw_nexts := 0; mw_result := Resolved |} ::
                      [as_middleware (fn 3 1 Resolved)])) =
    ([EMiddleware 1] ++ [EMiddleware 2] ++ [], Resolved).
Proof.
  apply (chain_stops_without_next 100 (HUser 9 Resolved) [as_middleware (fn 1 1 Resolved)]
           {| mw_name := 2; mw_nexts := 0; mw_result := Resolved |}).
  - constructor; [split; reflexivity|constructor].
  - reflexivity.
Defined.







End Flitz.
